(** * Remote Home Check: the scoring and care-plan engine of [src/app.py]

    A shallow embedding of [RemoteHomeCheckScorer]: the question definitions,
    the impact table, [validate_responses], [calculate_scores],
    [get_insight_tier], [get_care_plan_suggestion], the validation path
    of [validate_assessment_json] / [process_assessment], the row layout of
    [save_to_csv] with its master CSV, and the [/check-smtp] endpoint.

    Python dicts that the code builds or iterates ([responses],
    [valid_responses], [event_impacts]) are association lists in insertion
    order with [lookup] as [d[k]] / [k in d] and [dict_set] as [d[k] = v].

    Floating point: [insight_score] is modelled as an exact rational.  For
    integer scores, [0.6 * p + 0.4 * m] is a multiple of 1/10, and Python's
    [round(x, 1)] returns the double nearest to it; the model keeps the
    rational value and the rounding step, written out as round-half-even on
    tenths. *)

From Stdlib Require Import String List ZArith QArith Qround Bool Lia Permutation.
Import ListNotations.
Open Scope string_scope.

(** ** Question definitions ([self.questions]) *)

Record QuestionDefinition := {
  name : string;
  label : string;
  options : list string
}.

Definition questions : list QuestionDefinition := [
  {| name := "fall_risk"; label := "Fall Risk Assessment";
     options := ["Low"; "Moderate"; "High"] |};
  {| name := "medication_adherence"; label := "Medication Adherence";
     options := ["Excellent (95-100%)"; "Good (80-94%)"; "Fair (65-79%)"; "Poor (Below 65%)"] |};
  {| name := "cognitive_function"; label := "Cognitive Function Score";
     options := ["Normal (26-30)"; "Mild Impairment (21-25)"; "Moderate Impairment (10-20)"; "Severe Impairment (0-9)"] |};
  {| name := "uti_risk"; label := "UTI Risk Factors";
     options := ["Low Risk"; "Moderate Risk"; "High Risk"] |};
  {| name := "balance_test"; label := "Balance Test Result";
     options := ["Excellent (45-56 seconds)"; "Good (35-44 seconds)"; "Fair (25-34 seconds)"; "Poor (Below 25 seconds)"] |};
  {| name := "driving_safety"; label := "Driving Safety Status";
     options := ["Safe Driver"; "Minor Concerns"; "Major Concerns"; "Unsafe to Drive"] |};
  {| name := "nighttime_movement"; label := "Nighttime Movement Patterns";
     options := ["Normal Patterns"; "Slightly Increased"; "Significantly Increased"; "Concerning Patterns"] |};
  {| name := "social_engagement"; label := "Social Engagement Level";
     options := ["Highly Engaged"; "Moderately Engaged"; "Minimally Engaged"; "Socially Isolated"] |};
  {| name := "toilet_flush_count"; label := "Daily Toilet Flush Count";
     options := ["Normal (6-8 times)"; "Slightly Elevated (9-12 times)"; "Elevated (13-16 times)"; "Very High (17+ times)"] |}
].

(** ** The impact table ([self.event_impacts]) *)

Record Impact := {
  physical : Z;
  mental : Z
}.

Definition imp (p m : Z) : Impact := {| physical := p; mental := m |}.

Definition event_impacts : list (string * list (string * Impact)) := [
  ("fall_risk", [
     ("Low", imp 0 0); ("Moderate", imp (-3) 0); ("High", imp (-8) 0)]);
  ("medication_adherence", [
     ("Excellent (95-100%)", imp 0 0); ("Good (80-94%)", imp 0 0);
     ("Fair (65-79%)", imp (-1) (-1)); ("Poor (Below 65%)", imp (-2) (-2))]);
  ("cognitive_function", [
     ("Normal (26-30)", imp 0 0); ("Mild Impairment (21-25)", imp 0 (-1));
     ("Moderate Impairment (10-20)", imp 0 (-3)); ("Severe Impairment (0-9)", imp 0 (-5))]);
  ("uti_risk", [
     ("Low Risk", imp 0 0); ("Moderate Risk", imp (-2) 0); ("High Risk", imp (-4) 0)]);
  ("balance_test", [
     ("Excellent (45-56 seconds)", imp 0 0); ("Good (35-44 seconds)", imp 0 0);
     ("Fair (25-34 seconds)", imp (-1) 0); ("Poor (Below 25 seconds)", imp (-2) 0)]);
  ("driving_safety", [
     ("Safe Driver", imp 0 0); ("Minor Concerns", imp (-1) 0);
     ("Major Concerns", imp (-2) 0); ("Unsafe to Drive", imp (-3) 0)]);
  ("nighttime_movement", [
     ("Normal Patterns", imp 0 0); ("Slightly Increased", imp 0 0);
     ("Significantly Increased", imp (-1) (-1)); ("Concerning Patterns", imp (-2) (-2))]);
  ("social_engagement", [
     ("Highly Engaged", imp 0 0); ("Moderately Engaged", imp 0 0);
     ("Minimally Engaged", imp 0 (-2)); ("Socially Isolated", imp 0 (-4))]);
  ("toilet_flush_count", [
     ("Normal (6-8 times)", imp 0 0); ("Slightly Elevated (9-12 times)", imp 0 0);
     ("Elevated (13-16 times)", imp (-1) 0); ("Very High (17+ times)", imp (-2) 0)])
].

(** ** Dicts as association lists *)

Section Dict.
Context {A : Type}.

(** [d.get(k)]: [None] when [k not in d]. *)
Fixpoint lookup (k : string) (d : list (string * A)) : option A :=
  match d with
  | [] => None
  | (k', v) :: d' => if String.eqb k k' then Some v else lookup k d'
  end.

(** [d[k] = v]: overwrite in place when present, append otherwise. *)
Fixpoint dict_set (d : list (string * A)) (k : string) (v : A) : list (string * A) :=
  match d with
  | [] => [(k, v)]
  | (k', v') :: d' =>
      if String.eqb k k' then (k, v) :: d' else (k', v') :: dict_set d' k v
  end.

End Dict.

(** A response set: [responses], question name to selected option. *)
Definition ResponseSet := list (string * string).

(** ** [calculate_scores] *)

Record ScoreResult := {
  physical_score : Z;
  mental_score : Z;
  insight_score : Q;
  tier : string;
  physical_delta : Z;
  mental_delta : Z
}.

Definition base_physical_score : Z := 100.
Definition base_mental_score : Z := 100.

(** The loop [for question_name, response in responses.items()]: the
    accumulators [physical_delta], [mental_delta] threaded through. *)
Fixpoint accumulate_deltas (items : ResponseSet) (pd md : Z) : Z * Z :=
  match items with
  | [] => (pd, md)
  | (question_name, response) :: rest =>
      match lookup question_name event_impacts with
      | Some sub =>
          match lookup response sub with
          | Some impact =>
              accumulate_deltas rest (pd + physical impact) (md + mental impact)
          | None => accumulate_deltas rest pd md
          end
      | None => accumulate_deltas rest pd md
      end
  end.

(** [max(0, min(100, score + delta))] *)
Definition clamp_score (score delta : Z) : Z := Z.max 0 (Z.min 100 (score + delta)).

(** Python's [round(x, 1)]: round half to even on the tenths digit. *)
Definition round_half_even (y : Q) : Z :=
  let f := Qfloor y in
  match Qcompare (y - inject_Z f) (1 # 2) with
  | Lt => f
  | Gt => f + 1
  | Eq => if Z.even f then f else f + 1
  end.

Definition py_round1 (x : Q) : Q := round_half_even (x * 10) # 10.

(** [get_insight_tier] *)
Definition get_insight_tier (score : Q) : string :=
  if Qle_bool (90 # 1) score then "Independent"
  else if Qle_bool (70 # 1) score then "Monitor"
  else if Qle_bool (50 # 1) score then "Assist"
  else "Intervene".

Definition calculate_scores (responses : ResponseSet) : ScoreResult :=
  let '(physical_delta, mental_delta) := accumulate_deltas responses 0 0 in
  let physical_score := clamp_score base_physical_score physical_delta in
  let mental_score := clamp_score base_mental_score mental_delta in
  let insight_score :=
    py_round1 ((6 # 10) * inject_Z physical_score + (4 # 10) * inject_Z mental_score) in
  {| physical_score := physical_score;
     mental_score := mental_score;
     insight_score := insight_score;
     tier := get_insight_tier insight_score;
     physical_delta := physical_delta;
     mental_delta := mental_delta |}.

(** ** [get_care_plan_suggestion]

    [previous_tier] is [None] for Python's [None]; the test
    [if previous_tier] is false for [None] and for the empty string. *)

Definition suggestions : list (string * string) := [
  ("Independent", "Resume standard monitoring; schedule motivational check-in and goal-setting session");
  ("Monitor", "Conduct comprehensive medication reconciliation; recommend a daytime activity or exercise program");
  ("Assist", "Arrange part-time home-care aide (e.g., 12h/week); review medication-adherence log");
  ("Intervene", "Recommend car-key removal; seek a senior-living community or arrange for a full-time in-home provider; enrol in fall-prevention PT")
].

Definition py_truthy (s : option string) : bool :=
  match s with
  | None => false
  | Some v => negb (String.eqb v "")
  end.

Definition get_care_plan_suggestion (tier : string) (previous_tier : option string) : string :=
  let default :=
    match lookup tier suggestions with
    | Some s => s
    | None => "No specific recommendation"
    end in
  match previous_tier with
  | Some prev =>
      if py_truthy previous_tier && negb (String.eqb tier prev) then
        if String.eqb tier "Monitor" && String.eqb prev "Independent" then
          "Schedule balance & home-safety assessment; brief caregiver check-in"
        else if String.eqb tier "Assist"
                && existsb (String.eqb prev) ["Independent"; "Monitor"] then
          "Initiate physical-therapy evaluation; schedule telehealth PCP visit within 72h"
        else if String.eqb tier "Intervene" then
          "Convene multidisciplinary care conference (PCP, PT/OT, social worker); consider long-term-care placement"
        else default
      else default
  | None => default
  end.

(** ** [validate_responses] *)

Definition is_option (response : string) (q : QuestionDefinition) : bool :=
  existsb (String.eqb response) (options q).

(** The loop over [self.questions], threading [valid_responses] and
    [errors]. *)
Fixpoint validate_loop (qs : list QuestionDefinition) (responses : ResponseSet)
    (valid_responses : ResponseSet) (errors : list string) : ResponseSet * list string :=
  match qs with
  | [] => (valid_responses, errors)
  | question :: qs' =>
      let q_name := name question in
      match lookup q_name responses with
      | None =>
          validate_loop qs' responses valid_responses
            (errors ++ ["Missing response for " ++ q_name]%string)%list
      | Some response =>
          if is_option response question then
            validate_loop qs' responses (dict_set valid_responses q_name response) errors
          else
            validate_loop qs' responses valid_responses
              (errors ++ ["Invalid response '" ++ response ++ "' for " ++ q_name]%string)%list
      end
  end.

Definition validate_responses (responses : ResponseSet) : ResponseSet * list string :=
  validate_loop questions responses [] [].

(** ** [validate_assessment_json] and [process_assessment]

    The assessment JSON: [timestamp] present or not; [patient] absent, not
    a dict, or a dict with an optional [email] and [previous_tier];
    [responses] absent, not a dict, or a dict. *)

Inductive PatientField :=
| PatientDict (email : option string) (previous_tier : option string)
| PatientOther.

Inductive ResponsesField :=
| ResponsesDict (r : ResponseSet)
| ResponsesOther.

Record AssessmentData := {
  timestamp_present : bool;
  patient : option PatientField;
  responses_field : option ResponsesField
}.

Definition validate_assessment_json (a : AssessmentData) : list string :=
  let missing :=
    ((if timestamp_present a then [] else ["Missing required field: timestamp"])
     ++ (match patient a with None => ["Missing required field: patient"] | Some _ => [] end)
     ++ (match responses_field a with None => ["Missing required field: responses"] | Some _ => [] end))%list in
  let patient_errors :=
    match patient a with
    | Some PatientOther => ["Patient field must be a dictionary"]
    | Some (PatientDict None _) => ["Missing patient email"]
    | _ => []
    end in
  let response_errors :=
    match responses_field a with
    | Some ResponsesOther => ["Responses field must be a dictionary"]
    | Some (ResponsesDict r) => snd (validate_responses r)
    | None => []
    end in
  (missing ++ patient_errors ++ response_errors)%list.

Inductive ProcessResult :=
| PError (error : string) (details : list string)
| PSuccess (email_sent : bool) (scores : ScoreResult).

Definition is_error (r : ProcessResult) : bool :=
  match r with PError _ _ => true | PSuccess _ _ => false end.

Section Process.

(** What [process_assessment] does after scoring (saving JSON and CSV,
    rendering the PDF, sending the email, or the [except] branch
    "Processing failed") is external I/O, left as a parameter: it receives
    the assessment, [previous_tier] and the computed scores. *)
Variable finish : AssessmentData -> option string -> ScoreResult -> ProcessResult.

Definition process_assessment (a : AssessmentData) : ProcessResult :=
  let errors := validate_assessment_json a in
  match errors with
  | _ :: _ => PError "Invalid assessment data" errors
  | [] =>
      let previous_tier :=
        match patient a with Some (PatientDict _ pt) => pt | _ => None end in
      let responses :=
        match responses_field a with Some (ResponsesDict r) => r | _ => [] end in
      let '(valid_responses, response_errors) := validate_responses responses in
      match response_errors with
      | _ :: _ => PError "Invalid responses" response_errors
      | [] => finish a previous_tier (calculate_scores valid_responses)
      end
  end.

End Process.

(** ** Helper lemmas *)

Definition tiers : list string := ["Independent"; "Monitor"; "Assist"; "Intervene"].

(** Each question answered with the last option of its list, the one with
    the largest deltas in the table. *)
Definition worst_case_responses : ResponseSet :=
  map (fun q => (name q, last (options q) "")) questions.

(** The four bands of [get_insight_tier]. *)
Lemma tier_bands (s : Q) :
  (get_insight_tier s = "Independent" <-> (90 # 1 <= s)%Q) /\
  (get_insight_tier s = "Monitor" <-> (70 # 1 <= s)%Q /\ (s < 90 # 1)%Q) /\
  (get_insight_tier s = "Assist" <-> (50 # 1 <= s)%Q /\ (s < 70 # 1)%Q) /\
  (get_insight_tier s = "Intervene" <-> (s < 50 # 1)%Q).
Proof.
  destruct s as [n d]. unfold get_insight_tier, Qle_bool, Qle, Qlt; cbn [Qnum Qden].
  rewrite !Z.mul_1_r.
  destruct (Z.leb (90 * Z.pos d) n) eqn:E90;
  [apply Z.leb_le in E90 | apply Z.leb_gt in E90];
  [|destruct (Z.leb (70 * Z.pos d) n) eqn:E70;
    [apply Z.leb_le in E70 | apply Z.leb_gt in E70];
    [|destruct (Z.leb (50 * Z.pos d) n) eqn:E50;
      [apply Z.leb_le in E50 | apply Z.leb_gt in E50]]];
  repeat split; intros; try discriminate; lia.
Qed.

(** For integer scores the weighted sum is a whole number of tenths, so the
    rounding to one decimal keeps it exactly. *)
Lemma round_half_even_Z (y : Q) (z : Z) : (y == inject_Z z)%Q -> round_half_even y = z.
Proof.
  intro Hy. unfold round_half_even.
  assert (Hf : Qfloor y = z) by (rewrite Hy; apply Qfloor_Z).
  rewrite Hf.
  assert (H0 : (y - inject_Z z == 0)%Q) by (rewrite Hy; ring).
  rewrite H0. reflexivity.
Qed.

Lemma insight_exact (p m : Z) :
  py_round1 ((6 # 10) * inject_Z p + (4 # 10) * inject_Z m) = (6 * p + 4 * m) # 10.
Proof.
  unfold py_round1. f_equal. apply round_half_even_Z.
  unfold Qeq; simpl. lia.
Qed.

Lemma calculate_scores_fields (r : ResponseSet) :
  let s := calculate_scores r in
  physical_score s = clamp_score base_physical_score (physical_delta s) /\
  mental_score s = clamp_score base_mental_score (mental_delta s) /\
  insight_score s =
    py_round1 ((6 # 10) * inject_Z (physical_score s) + (4 # 10) * inject_Z (mental_score s)) /\
  tier s = get_insight_tier (insight_score s).
Proof.
  unfold calculate_scores. destruct (accumulate_deltas r 0 0). simpl. auto.
Qed.

(** ** Scoring claims *)

(** C1 (counterexample): with every question answered by its highest-impact
    option the deltas do not exceed -100 and the scores are not clamped to
    0 / 0 / 0.0 / Intervene. *)
Lemma C1_worst_case_not_zero :
  ~ ((physical_delta (calculate_scores worst_case_responses) < -100 \/
      mental_delta (calculate_scores worst_case_responses) < -100)%Z /\
     physical_score (calculate_scores worst_case_responses) = 0%Z /\
     mental_score (calculate_scores worst_case_responses) = 0%Z /\
     (insight_score (calculate_scores worst_case_responses) == 0)%Q /\
     tier (calculate_scores worst_case_responses) = "Intervene").
Proof.
  intros [_ [H _]]. vm_compute in H. discriminate.
Qed.

(** C1 (amended): [worst_case_responses] picks, for every question of the
    impact table, an option whose physical and mental deltas are both the
    smallest of that question; the resulting deltas are -23 and -13, and the
    scores are physical 77, mental 87, insight 81.0, tier Monitor. *)
Theorem C1_worst_case_scores :
  (forall qn sub, In (qn, sub) event_impacts ->
     exists o i, lookup qn worst_case_responses = Some o /\ lookup o sub = Some i /\
       forall o' i', In (o', i') sub ->
         (physical i <= physical i')%Z /\ (mental i <= mental i')%Z) /\
  calculate_scores worst_case_responses =
    {| physical_score := 77; mental_score := 87; insight_score := 810 # 10;
       tier := "Monitor"; physical_delta := -23; mental_delta := -13 |}.
Proof.
  split; [|vm_compute; reflexivity].
  intros qn sub H. simpl in H.
  repeat destruct H as [H|H]; try contradiction; injection H as <- <-;
  do 2 eexists; (split; [reflexivity|split; [reflexivity|]]);
  intros o' i' H'; simpl in H';
  repeat destruct H' as [H'|H']; try contradiction;
  injection H' as <- <-; simpl; lia.
Qed.

(** C2: [get_insight_tier] is a step function with lower-bound-inclusive
    bands at 90, 70 and 50, checked at the boundary values 90, 89.9, 70,
    69.9, 50 and 49.9. *)
Theorem C2_tier_step_function :
  (forall s : Q,
     (get_insight_tier s = "Independent" <-> (90 # 1 <= s)%Q) /\
     (get_insight_tier s = "Monitor" <-> (70 # 1 <= s)%Q /\ (s < 90 # 1)%Q) /\
     (get_insight_tier s = "Assist" <-> (50 # 1 <= s)%Q /\ (s < 70 # 1)%Q) /\
     (get_insight_tier s = "Intervene" <-> (s < 50 # 1)%Q)) /\
  get_insight_tier (90 # 1) = "Independent" /\
  get_insight_tier (899 # 10) = "Monitor" /\
  get_insight_tier (70 # 1) = "Monitor" /\
  get_insight_tier (699 # 10) = "Assist" /\
  get_insight_tier (50 # 1) = "Assist" /\
  get_insight_tier (499 # 10) = "Intervene".
Proof.
  split; [exact tier_bands|].
  repeat split; reflexivity.
Qed.

(** C3: for every response set, physical and mental scores are
    [clamp(100 + delta, 0, 100)] and lie in [0, 100]. *)
Theorem C3_scores_clamped (r : ResponseSet) :
  let s := calculate_scores r in
  physical_score s = Z.max 0 (Z.min 100 (100 + physical_delta s)) /\
  mental_score s = Z.max 0 (Z.min 100 (100 + mental_delta s)) /\
  (0 <= physical_score s <= 100)%Z /\
  (0 <= mental_score s <= 100)%Z.
Proof.
  destruct (calculate_scores_fields r) as [Hp [Hm _]].
  cbv zeta. rewrite Hp, Hm. unfold clamp_score, base_physical_score, base_mental_score.
  repeat split; lia.
Qed.

(** C4: [insight_score] is [round(0.6 * physical + 0.4 * mental, 1)] of the
    clamped scores, and the rounding is exact: the value is
    [(6 * physical + 4 * mental) / 10]. *)
Theorem C4_insight_score_weighted (r : ResponseSet) :
  let s := calculate_scores r in
  insight_score s =
    py_round1 ((6 # 10) * inject_Z (physical_score s) + (4 # 10) * inject_Z (mental_score s)) /\
  insight_score s = (6 * physical_score s + 4 * mental_score s) # 10.
Proof.
  destruct (calculate_scores_fields r) as [_ [_ [Hi _]]].
  cbv zeta. rewrite Hi. split; [reflexivity|apply insight_exact].
Qed.

(** ** Care-plan claims *)

(** C5: when the previous tier is present (a non-empty string) and differs
    from the current tier [Intervene], the suggestion is the
    multidisciplinary care conference, whatever the previous tier was. *)
Theorem C5_intervene_override (prev : string) :
  prev <> "" -> prev <> "Intervene" ->
  get_care_plan_suggestion "Intervene" (Some prev) =
    "Convene multidisciplinary care conference (PCP, PT/OT, social worker); consider long-term-care placement".
Proof.
  intros Hne Hdiff. unfold get_care_plan_suggestion, py_truthy.
  apply String.eqb_neq in Hne. rewrite Hne.
  assert (Hd : String.eqb "Intervene" prev = false)
    by (apply String.eqb_neq; intro E; apply Hdiff; symmetry; exact E).
  rewrite Hd. reflexivity.
Qed.

(** C6: for each of the 4 x 5 combinations of a tier and a previous tier
    (one of the four, or absent) the suggestion is a non-empty string; when
    the previous tier is absent or equal to the tier it is the tier's
    steady-state entry of [suggestions]. *)
Theorem C6_advisor_total (t : string) (p : option string) :
  In t tiers -> In p (None :: map Some tiers) ->
  get_care_plan_suggestion t p <> "" /\
  (p = None \/ p = Some t -> lookup t suggestions = Some (get_care_plan_suggestion t p)).
Proof.
  intros Ht Hp. simpl in Ht, Hp.
  repeat destruct Ht as [Ht|Ht]; try contradiction; subst t;
  repeat destruct Hp as [Hp|Hp]; try contradiction; subst p;
  (split; [discriminate | intros [E|E]; try discriminate; reflexivity]).
Qed.

(** ** Unresolvable entries *)

Lemma dict_set_fresh {A : Type} (d : list (string * A)) (k : string) (v : A) :
  ~ In k (map fst d) -> dict_set d k v = (d ++ [(k, v)])%list.
Proof.
  induction d as [|[k' v'] d IH]; intro Hk; simpl; [reflexivity|].
  simpl in Hk. destruct (String.eqb k k') eqn:E.
  - apply String.eqb_eq in E. subst. exfalso. apply Hk. now left.
  - rewrite IH; [reflexivity|]. intro H. apply Hk. now right.
Qed.

Lemma accumulate_deltas_app_unresolvable (r : ResponseSet) (q o : string) (pd md : Z) :
  (lookup q event_impacts = None \/
   exists sub, lookup q event_impacts = Some sub /\ lookup o sub = None) ->
  accumulate_deltas (r ++ [(q, o)])%list pd md = accumulate_deltas r pd md.
Proof.
  intro Hu. revert pd md.
  induction r as [|[qn resp] r IH]; intros pd md; cbn [app accumulate_deltas].
  - destruct Hu as [Hn | [sub [Hs Ho]]].
    + rewrite Hn. reflexivity.
    + rewrite Hs, Ho. reflexivity.
  - destruct (lookup qn event_impacts) as [sub|]; [destruct (lookup resp sub)|]; apply IH.
Qed.

(** C7: adding to a response set an entry for a new key whose question is
    not in the impact table, or whose option is not in that question's
    sub-table, leaves the [ScoreResult] unchanged. *)
Theorem C7_unresolvable_skipped (r : ResponseSet) (q o : string) :
  ~ In q (map fst r) ->
  (lookup q event_impacts = None \/
   exists sub, lookup q event_impacts = Some sub /\ lookup o sub = None) ->
  calculate_scores (dict_set r q o) = calculate_scores r.
Proof.
  intros Hfresh Hu. rewrite (dict_set_fresh r q o Hfresh).
  unfold calculate_scores. rewrite (accumulate_deltas_app_unresolvable r q o 0 0 Hu).
  reflexivity.
Qed.

(** ** Validation *)

(** The errors [validate_responses] records for one question. *)
Definition question_errors (responses : ResponseSet) (question : QuestionDefinition) : list string :=
  match lookup (name question) responses with
  | None => ["Missing response for " ++ name question]
  | Some response =>
      if is_option response question then []
      else ["Invalid response '" ++ response ++ "' for " ++ name question]
  end.

Definition violates (responses : ResponseSet) (question : QuestionDefinition) : bool :=
  match lookup (name question) responses with
  | None => true
  | Some response => negb (is_option response question)
  end.

Lemma validate_loop_errors (qs : list QuestionDefinition) (r v : ResponseSet) (e : list string) :
  snd (validate_loop qs r v e) = (e ++ flat_map (question_errors r) qs)%list.
Proof.
  revert v e. induction qs as [|q qs IH]; intros v e; simpl.
  - rewrite app_nil_r. reflexivity.
  - unfold question_errors. destruct (lookup (name q) r) as [resp|].
    + destruct (is_option resp q); rewrite IH; simpl; [reflexivity|].
      rewrite <- app_assoc. reflexivity.
    + rewrite IH, <- app_assoc. reflexivity.
Qed.

Lemma question_errors_length (r : ResponseSet) (qs : list QuestionDefinition) :
  length (flat_map (question_errors r) qs) = length (filter (violates r) qs).
Proof.
  induction qs as [|q qs IH]; simpl; [reflexivity|].
  rewrite length_app, IH. unfold question_errors, violates.
  destruct (lookup (name q) r) as [resp|]; [destruct (is_option resp q)|]; reflexivity.
Qed.

(** C8: [validate_responses] lists one error per question of [questions]
    that is missing and one per question whose value is not a permitted
    option (so exactly one per violating question), and [process_assessment]
    returns an error result whenever that list is non-empty. *)
Theorem C8_all_violations_listed (r : ResponseSet) :
  let errs := snd (validate_responses r) in
  (forall q, In q questions -> lookup (name q) r = None ->
     In ("Missing response for " ++ name q) errs) /\
  (forall q v, In q questions -> lookup (name q) r = Some v -> is_option v q = false ->
     In ("Invalid response '" ++ v ++ "' for " ++ name q) errs) /\
  length errs = length (filter (violates r) questions) /\
  (forall finish a, responses_field a = Some (ResponsesDict r) -> errs <> [] ->
     is_error (process_assessment finish a) = true).
Proof.
  cbv zeta. unfold validate_responses. rewrite validate_loop_errors, app_nil_l.
  split; [|split; [|split]].
  - intros q Hq Hn. apply in_flat_map. exists q. split; [exact Hq|].
    unfold question_errors. rewrite Hn. now left.
  - intros q v Hq Hs Ho. apply in_flat_map. exists q. split; [exact Hq|].
    unfold question_errors. rewrite Hs, Ho. now left.
  - apply question_errors_length.
  - intros finish a Ha Hne. unfold process_assessment.
    destruct (validate_assessment_json a) eqn:E; [|reflexivity].
    exfalso. apply Hne. unfold validate_assessment_json in E. rewrite Ha in E.
    unfold validate_responses in E. rewrite validate_loop_errors in E.
    apply app_eq_nil in E as [_ E]. apply app_eq_nil in E as [_ E]. exact E.
Qed.

(** ** The impact table *)

(** C9: every option of every question definition has an entry in
    [event_impacts], and every delta of the table is an integer in
    [-8, 0]. *)
Theorem C9_impact_table_invariant :
  (forall q o, In q questions -> In o (options q) ->
     exists sub i, lookup (name q) event_impacts = Some sub /\ lookup o sub = Some i) /\
  (forall qn sub o i, In (qn, sub) event_impacts -> In (o, i) sub ->
     (-8 <= physical i <= 0)%Z /\ (-8 <= mental i <= 0)%Z).
Proof.
  split.
  - intros q o Hq Ho. simpl in Hq.
    repeat destruct Hq as [Hq|Hq]; try contradiction; subst q; simpl in Ho;
    repeat destruct Ho as [Ho|Ho]; try contradiction; subst o;
    do 2 eexists; split; reflexivity.
  - intros qn sub o i Hs Hi. simpl in Hs.
    repeat destruct Hs as [Hs|Hs]; try contradiction; injection Hs as <- <-;
    simpl in Hi; repeat destruct Hi as [Hi|Hi]; try contradiction;
    injection Hi as <- <-; simpl; lia.
Qed.

(** ** Lower bounds of the summed deltas *)

(** The impact of one [(question_name, response)] entry, zero when the
    entry does not resolve. *)
Definition entry_impact (entry : string * string) : Impact :=
  match lookup (fst entry) event_impacts with
  | Some sub =>
      match lookup (snd entry) sub with
      | Some impact => impact
      | None => imp 0 0
      end
  | None => imp 0 0
  end.

Definition zsum {A : Type} (f : A -> Z) (l : list A) : Z :=
  fold_right (fun x acc => (f x + acc)%Z) 0%Z l.

Lemma accumulate_deltas_sum (r : ResponseSet) (pd md : Z) :
  accumulate_deltas r pd md =
    (pd + zsum (fun e => physical (entry_impact e)) r,
     md + zsum (fun e => mental (entry_impact e)) r)%Z.
Proof.
  revert pd md. induction r as [|[q o] r IH]; intros pd md.
  - simpl. f_equal; lia.
  - cbn [accumulate_deltas zsum fold_right]. fold (zsum (fun e => physical (entry_impact e)) r).
    fold (zsum (fun e => mental (entry_impact e)) r).
    unfold entry_impact at 1 3. cbn [fst snd].
    destruct (lookup q event_impacts) as [sub|]; [destruct (lookup o sub) as [i|]|];
    rewrite IH; simpl; f_equal; lia.
Qed.

Section MinDelta.

(** [sel] picks the physical or the mental component. *)
Variable sel : Impact -> Z.
Hypothesis sel_zero : sel (imp 0 0) = 0%Z.

Definition min_of (sub : list (string * Impact)) : Z :=
  fold_right (fun e acc => Z.min (sel (snd e)) acc) 0%Z sub.

(** The smallest delta a question can contribute (zero for a name that is
    not in the table). *)
Definition min_delta (k : string) : Z :=
  match lookup k event_impacts with
  | Some sub => min_of sub
  | None => 0%Z
  end.

Lemma min_of_le0 (sub : list (string * Impact)) : (min_of sub <= 0)%Z.
Proof. induction sub as [|e sub IH]; simpl; lia. Qed.

Lemma min_of_lookup (sub : list (string * Impact)) (o : string) (i : Impact) :
  lookup o sub = Some i -> (min_of sub <= sel i)%Z.
Proof.
  induction sub as [|[o' i'] sub IH]; simpl; [discriminate|].
  destruct (String.eqb o o'); [intro E; injection E as <-; lia|].
  intro E. specialize (IH E). lia.
Qed.

Lemma min_delta_le0 (k : string) : (min_delta k <= 0)%Z.
Proof. unfold min_delta. destruct (lookup k event_impacts); [apply min_of_le0|lia]. Qed.

Lemma entry_ge_min (e : string * string) : (min_delta (fst e) <= sel (entry_impact e))%Z.
Proof.
  destruct e as [q o]. unfold min_delta, entry_impact. cbn [fst snd].
  destruct (lookup q event_impacts) as [sub|]; [|rewrite sel_zero; lia].
  destruct (lookup o sub) as [i|] eqn:E; [exact (min_of_lookup sub o i E)|].
  pose proof (min_of_le0 sub). rewrite sel_zero. lia.
Qed.

End MinDelta.

Lemma lookup_notin {A : Type} (k : string) (d : list (string * A)) :
  ~ In k (map fst d) -> lookup k d = None.
Proof.
  induction d as [|[k' v] d IH]; simpl; intro H; [reflexivity|].
  destruct (String.eqb k k') eqn:E.
  - apply String.eqb_eq in E. subst. exfalso. apply H. now left.
  - apply IH. intro Hin. apply H. now right.
Qed.

Section KeySum.

(** A per-key contribution that is never positive. *)
Variable f : string -> Z.
Hypothesis f_le0 : forall k, (f k <= 0)%Z.

Definition drop_key (k : string) (S : list string) : list string :=
  filter (fun x => negb (String.eqb x k)) S.

Lemma zsum_le0 (S : list string) : (zsum f S <= 0)%Z.
Proof.
  unfold zsum. induction S as [|x S IH]; simpl; [lia|]. pose proof (f_le0 x). lia.
Qed.

Lemma drop_key_notin (k : string) (S : list string) : ~ In k S -> drop_key k S = S.
Proof.
  induction S as [|x S IH]; simpl; intro H; [reflexivity|].
  destruct (String.eqb x k) eqn:E.
  - apply String.eqb_eq in E. subst. exfalso. apply H. now left.
  - simpl. rewrite IH; [reflexivity|]. intro Hin. apply H. now right.
Qed.

Lemma zsum_drop_key (k : string) (S : list string) :
  NoDup S -> In k S -> zsum f S = (f k + zsum f (drop_key k S))%Z.
Proof.
  induction S as [|x S IH]; intros Hnd Hin; [destruct Hin|].
  inversion Hnd as [|? ? Hx Hnd']; subst.
  unfold drop_key. cbn [filter]. destruct (String.eqb x k) eqn:E.
  - apply String.eqb_eq in E. subst x. simpl.
    fold (drop_key k S). rewrite (drop_key_notin k S Hx). reflexivity.
  - apply String.eqb_neq in E. destruct Hin as [Hin|Hin]; [contradiction|].
    simpl. fold (drop_key k S). unfold zsum in IH |- *. simpl in IH.
    rewrite (IH Hnd' Hin). lia.
Qed.

Lemma in_drop_key (k x : string) (S : list string) :
  In x (drop_key k S) <-> In x S /\ x <> k.
Proof.
  unfold drop_key. rewrite filter_In. rewrite negb_true_iff, String.eqb_neq. tauto.
Qed.

(** Summing over a duplicate-free list of keys [l] gives at least the sum
    over all keys [S] that can contribute. *)
Lemma zsum_keys_lower (l S : list string) :
  NoDup l -> NoDup S -> (forall k, In k l -> ~ In k S -> f k = 0%Z) ->
  (zsum f S <= zsum f l)%Z.
Proof.
  revert S. induction l as [|k l IH]; intros S Hl HS Hz.
  - simpl. apply zsum_le0.
  - inversion Hl as [|? ? Hk Hl']; subst.
    cbn [zsum fold_right]. fold (zsum f l).
    destruct (in_dec string_dec k S) as [Hin|Hnin].
    + rewrite (zsum_drop_key k S HS Hin).
      assert (zsum f (drop_key k S) <= zsum f l)%Z; [|lia].
      apply IH; [exact Hl'| apply NoDup_filter; exact HS|].
      intros k' Hk' Hnot. apply Hz; [now right|].
      intro HkS. apply Hnot. apply in_drop_key. split; [exact HkS|].
      intro E. subst k'. contradiction.
    + rewrite (Hz k (or_introl eq_refl) Hnin).
      assert (zsum f S <= zsum f l)%Z; [|lia].
      apply IH; [exact Hl'|exact HS|]. intros k' Hk'. apply Hz. now right.
Qed.

End KeySum.

Lemma event_impacts_keys_nodup : NoDup (map fst event_impacts).
Proof. simpl. repeat constructor; simpl; intuition discriminate. Qed.

Lemma delta_sum_lower (sel : Impact -> Z) (r : ResponseSet) :
  sel (imp 0 0) = 0%Z -> NoDup (map fst r) ->
  (zsum (min_delta sel) (map fst event_impacts) <= zsum (fun e => sel (entry_impact e)) r)%Z.
Proof.
  intros Hsel Hnd.
  transitivity (zsum (min_delta sel) (map fst r)).
  - apply zsum_keys_lower; [apply min_delta_le0|exact Hnd|apply event_impacts_keys_nodup|].
    intros k _ Hk. unfold min_delta. rewrite (lookup_notin k event_impacts Hk). reflexivity.
  - clear Hnd. unfold zsum. induction r as [|e r IH]; simpl; [lia|].
    pose proof (entry_ge_min sel Hsel e). lia.
Qed.

Lemma physical_floor : zsum (min_delta physical) (map fst event_impacts) = (-23)%Z.
Proof. vm_compute. reflexivity. Qed.

Lemma mental_floor : zsum (min_delta mental) (map fst event_impacts) = (-13)%Z.
Proof. vm_compute. reflexivity. Qed.

(** For every dict (distinct keys), the summed deltas are at least -23
    and -13. *)
Lemma calculate_scores_delta_floor (r : ResponseSet) :
  NoDup (map fst r) ->
  (-23 <= physical_delta (calculate_scores r))%Z /\ (-13 <= mental_delta (calculate_scores r))%Z.
Proof.
  intro Hnd. unfold calculate_scores. rewrite accumulate_deltas_sum. simpl.
  pose proof (delta_sum_lower physical r eq_refl Hnd) as Hp.
  pose proof (delta_sum_lower mental r eq_refl Hnd) as Hm.
  rewrite physical_floor in Hp. rewrite mental_floor in Hm. lia.
Qed.

Lemma dict_set_keys {A : Type} (d : list (string * A)) (k x : string) (v : A) :
  In x (map fst (dict_set d k v)) -> x = k \/ In x (map fst d).
Proof.
  induction d as [|[k' v'] d IH]; simpl.
  - intros [E|[]]. now left.
  - destruct (String.eqb k k') eqn:E; simpl.
    + apply String.eqb_eq in E. subst. tauto.
    + intros [H|H]; [tauto|]. destruct (IH H); tauto.
Qed.

Lemma dict_set_nodup {A : Type} (d : list (string * A)) (k : string) (v : A) :
  NoDup (map fst d) -> NoDup (map fst (dict_set d k v)).
Proof.
  induction d as [|[k' v'] d IH]; simpl; intro Hnd.
  - repeat constructor. intros [].
  - inversion Hnd as [|? ? Hk' Hnd']; subst.
    destruct (String.eqb k k') eqn:E; simpl.
    + apply String.eqb_eq in E. subst. constructor; assumption.
    + constructor; [|apply IH; exact Hnd'].
      intro Hin. destruct (dict_set_keys d k k' v Hin) as [Eq|Hin'].
      * subst. rewrite String.eqb_refl in E. discriminate.
      * contradiction.
Qed.

Lemma validate_loop_nodup (qs : list QuestionDefinition) (r v : ResponseSet) (e : list string) :
  NoDup (map fst v) -> NoDup (map fst (fst (validate_loop qs r v e))).
Proof.
  revert v e. induction qs as [|q qs IH]; intros v e Hv; simpl; [exact Hv|].
  destruct (lookup (name q) r) as [resp|]; [destruct (is_option resp q)|];
  apply IH; try apply dict_set_nodup; exact Hv.
Qed.

Lemma scores_from_delta_floor (rs : ResponseSet) :
  (-23 <= physical_delta (calculate_scores rs))%Z ->
  (-13 <= mental_delta (calculate_scores rs))%Z ->
  (77 <= physical_score (calculate_scores rs))%Z /\
  (87 <= mental_score (calculate_scores rs))%Z /\
  (81 # 1 <= insight_score (calculate_scores rs))%Q /\
  (tier (calculate_scores rs) = "Independent" \/ tier (calculate_scores rs) = "Monitor").
Proof.
  intros Hp Hm.
  destruct (calculate_scores_fields rs) as [Hps [Hms [Hi Ht]]].
  remember (calculate_scores rs) as s eqn:Hs. clear Hs.
  assert (Hp' : (77 <= physical_score s)%Z)
    by (rewrite Hps; unfold clamp_score, base_physical_score; lia).
  assert (Hm' : (87 <= mental_score s)%Z)
    by (rewrite Hms; unfold clamp_score, base_mental_score; lia).
  assert (Hq : (81 # 1 <= insight_score s)%Q)
    by (rewrite Hi, insight_exact; unfold Qle; cbn [Qnum Qden]; lia).
  split; [exact Hp'|split; [exact Hm'|split; [exact Hq|]]].
  destruct (tier_bands (insight_score s)) as [HI [HM _]].
  destruct (Qlt_le_dec (insight_score s) (90 # 1)) as [Hlt|Hge].
  - right. rewrite Ht. apply HM. split; [|exact Hlt].
    eapply Qle_trans; [|exact Hq]. unfold Qle; simpl; lia.
  - left. rewrite Ht. apply HI. exact Hge.
Qed.

(** ** Reachable tiers *)

(** C10: for a response set (a dict: distinct keys) that passes
    [validate_responses], both the set itself and the [valid_responses]
    that [process_assessment] scores have physical delta at least -23 and
    mental delta at least -13, hence physical score at least 77, mental
    score at least 87, insight score at least 81.0, and tier Independent or
    Monitor. *)
Theorem C10_valid_input_tiers (r : ResponseSet) :
  NoDup (map fst r) -> snd (validate_responses r) = [] ->
  forall rs, rs = r \/ rs = fst (validate_responses r) ->
  (-23 <= physical_delta (calculate_scores rs))%Z /\
  (-13 <= mental_delta (calculate_scores rs))%Z /\
  (77 <= physical_score (calculate_scores rs))%Z /\
  (87 <= mental_score (calculate_scores rs))%Z /\
  (81 # 1 <= insight_score (calculate_scores rs))%Q /\
  (tier (calculate_scores rs) = "Independent" \/ tier (calculate_scores rs) = "Monitor").
Proof.
  intros Hnd _ rs Hrs.
  assert (Hk : NoDup (map fst rs)).
  { destruct Hrs as [-> | ->]; [exact Hnd|].
    apply validate_loop_nodup. constructor. }
  destruct (calculate_scores_delta_floor rs Hk) as [Hp Hm].
  split; [exact Hp|split; [exact Hm|]].
  apply scores_from_delta_floor; assumption.
Qed.

(** ** Witnesses at concrete inputs *)

Lemma C5_intervene_override_witness :
  "Monitor" <> "" /\ "Monitor" <> "Intervene" /\
  get_care_plan_suggestion "Intervene" (Some "Monitor") =
    "Convene multidisciplinary care conference (PCP, PT/OT, social worker); consider long-term-care placement".
Proof.
  split; [discriminate|split; [discriminate|]].
  apply C5_intervene_override; discriminate.
Defined.

Lemma C6_advisor_total_witness :
  In "Assist" tiers /\ In (Some "Monitor") (None :: map Some tiers) /\
  (get_care_plan_suggestion "Assist" (Some "Monitor") <> "" /\
   (Some "Monitor" = None \/ Some "Monitor" = Some "Assist" ->
    lookup "Assist" suggestions = Some (get_care_plan_suggestion "Assist" (Some "Monitor")))).
Proof.
  split; [simpl; right; right; left; reflexivity|].
  split; [simpl; right; right; left; reflexivity|].
  apply C6_advisor_total; simpl; [right; right; left | right; right; left]; reflexivity.
Defined.

Lemma C7_unresolvable_skipped_witness :
  ~ In "unknown_question" (map fst [("fall_risk", "High")]) /\
  calculate_scores (dict_set [("fall_risk", "High")] "unknown_question" "x") =
    calculate_scores [("fall_risk", "High")].
Proof.
  split; [simpl; intros [H|[]]; discriminate|].
  apply C7_unresolvable_skipped; [simpl; intros [H|[]]; discriminate | left; reflexivity].
Defined.

Lemma C10_valid_input_tiers_witness :
  NoDup (map fst worst_case_responses) /\ snd (validate_responses worst_case_responses) = [] /\
  (tier (calculate_scores worst_case_responses) = "Independent" \/
   tier (calculate_scores worst_case_responses) = "Monitor").
Proof.
  assert (Hnd : NoDup (map fst worst_case_responses))
    by (simpl; repeat constructor; simpl; intuition discriminate).
  assert (Hv : snd (validate_responses worst_case_responses) = []) by (vm_compute; reflexivity).
  split; [exact Hnd|split; [exact Hv|]].
  apply (C10_valid_input_tiers worst_case_responses Hnd Hv worst_case_responses (or_introl eq_refl)).
Defined.

(** * Further properties of the code *)

(** ** Scores depend only on the answers to the known questions *)

(** A name is a question of the impact table. *)
Definition known (k : string) : bool :=
  match lookup k event_impacts with Some _ => true | None => false end.

(** What the answer stored under key [k] of [r] contributes. *)
Definition key_impact (sel : Impact -> Z) (r : ResponseSet) (k : string) : Z :=
  match lookup k r with
  | Some v => sel (entry_impact (k, v))
  | None => 0%Z
  end.

Lemma lookup_in_nodup {A : Type} (d : list (string * A)) (k : string) (v : A) :
  NoDup (map fst d) -> In (k, v) d -> lookup k d = Some v.
Proof.
  induction d as [|[k' v'] d IH]; simpl; intros Hnd Hin; [destruct Hin|].
  inversion Hnd as [|? ? Hk' Hnd']; subst.
  destruct Hin as [E|Hin].
  - injection E as -> ->. rewrite String.eqb_refl. reflexivity.
  - destruct (String.eqb k k') eqn:E.
    + apply String.eqb_eq in E. subst. exfalso. apply Hk'.
      apply in_map_iff. exists (k', v). auto.
    + apply IH; assumption.
Qed.

Lemma in_keys_lookup {A : Type} (d : list (string * A)) (k : string) :
  In k (map fst d) <-> lookup k d <> None.
Proof.
  induction d as [|[k' v'] d IH]; simpl; [tauto|].
  destruct (String.eqb k k') eqn:E.
  - apply String.eqb_eq in E. subst. split; [discriminate|auto].
  - apply String.eqb_neq in E. rewrite <- IH. split; [intros [H|H]; [congruence|exact H]|auto].
Qed.

Lemma zsum_ext_in {A : Type} (f g : A -> Z) (l : list A) :
  (forall x, In x l -> f x = g x) -> zsum f l = zsum g l.
Proof.
  unfold zsum. induction l as [|x l IH]; simpl; intro H; [reflexivity|].
  rewrite (H x (or_introl eq_refl)), IH; [reflexivity|]. intros y Hy. apply H. now right.
Qed.

Lemma zsum_map {A B : Type} (g : B -> Z) (h : A -> B) (l : list A) :
  zsum g (map h l) = zsum (fun x => g (h x)) l.
Proof. unfold zsum. induction l as [|x l IH]; simpl; [reflexivity|]. now rewrite IH. Qed.

Lemma zsum_filter_zero {A : Type} (f : A -> Z) (p : A -> bool) (l : list A) :
  (forall x, In x l -> p x = false -> f x = 0%Z) -> zsum f l = zsum f (filter p l).
Proof.
  unfold zsum. induction l as [|x l IH]; simpl; intro H; [reflexivity|].
  destruct (p x) eqn:E; simpl.
  - rewrite IH; [reflexivity|]. intros y Hy. apply H. now right.
  - rewrite (H x (or_introl eq_refl) E), IH; [reflexivity|]. intros y Hy. apply H. now right.
Qed.

Lemma zsum_perm {A : Type} (f : A -> Z) (l l' : list A) :
  Permutation l l' -> zsum f l = zsum f l'.
Proof.
  unfold zsum. induction 1; simpl; try lia.
Qed.

Lemma delta_sum_by_keys (sel : Impact -> Z) (r : ResponseSet) :
  sel (imp 0 0) = 0%Z -> NoDup (map fst r) ->
  zsum (fun e => sel (entry_impact e)) r =
  zsum (key_impact sel r) (filter known (map fst r)).
Proof.
  intros Hsel Hnd.
  rewrite <- zsum_filter_zero.
  - rewrite zsum_map. apply zsum_ext_in. intros [k v] Hin. unfold key_impact. cbn [fst].
    rewrite (lookup_in_nodup r k v Hnd Hin). reflexivity.
  - intros k _ Hk. unfold key_impact, known in *.
    destruct (lookup k r) as [v|]; [|reflexivity].
    unfold entry_impact. cbn [fst]. destruct (lookup k event_impacts); [discriminate|exact Hsel].
Qed.

Lemma delta_sum_agree (sel : Impact -> Z) (r1 r2 : ResponseSet) :
  sel (imp 0 0) = 0%Z -> NoDup (map fst r1) -> NoDup (map fst r2) ->
  (forall k, known k = true -> lookup k r1 = lookup k r2) ->
  zsum (fun e => sel (entry_impact e)) r1 = zsum (fun e => sel (entry_impact e)) r2.
Proof.
  intros Hsel H1 H2 Hagree.
  rewrite (delta_sum_by_keys sel r1 Hsel H1), (delta_sum_by_keys sel r2 Hsel H2).
  rewrite (zsum_perm _ (filter known (map fst r1)) (filter known (map fst r2))).
  - apply zsum_ext_in. intros k Hk. apply filter_In in Hk as [_ Hk].
    unfold key_impact. rewrite Hagree by exact Hk. reflexivity.
  - apply NoDup_Permutation; try (apply NoDup_filter; assumption).
    intro k. rewrite !filter_In, !in_keys_lookup.
    split; intros [Hin Hk]; (split; [|exact Hk]); [rewrite <- Hagree | rewrite Hagree]; assumption.
Qed.

Lemma scores_agree_on_known (r1 r2 : ResponseSet) :
  NoDup (map fst r1) -> NoDup (map fst r2) ->
  (forall k, known k = true -> lookup k r1 = lookup k r2) ->
  calculate_scores r1 = calculate_scores r2.
Proof.
  intros H1 H2 Hagree. unfold calculate_scores. rewrite !accumulate_deltas_sum.
  rewrite (delta_sum_agree physical r1 r2 eq_refl H1 H2 Hagree).
  rewrite (delta_sum_agree mental r1 r2 eq_refl H1 H2 Hagree).
  reflexivity.
Qed.

(** Two response dicts that give the same answers to the questions of the
    impact table get the same [ScoreResult], whatever the order of their
    entries and whatever other keys they hold. *)
Theorem calculate_scores_depends_on_known_answers (r1 r2 : ResponseSet) :
  NoDup (map fst r1) -> NoDup (map fst r2) ->
  (forall k, known k = true -> lookup k r1 = lookup k r2) ->
  calculate_scores r1 = calculate_scores r2.
Proof. exact (scores_agree_on_known r1 r2). Qed.

(** ** What [validate_responses] keeps *)

(** The entry [validate_responses] keeps for one question. *)
Definition valid_entry (responses : ResponseSet) (question : QuestionDefinition) : ResponseSet :=
  match lookup (name question) responses with
  | Some response => if is_option response question then [(name question, response)] else []
  | None => []
  end.

Lemma validate_loop_valid (qs : list QuestionDefinition) (r acc : ResponseSet) (e : list string) :
  NoDup (map name qs) -> (forall q, In q qs -> ~ In (name q) (map fst acc)) ->
  fst (validate_loop qs r acc e) = (acc ++ flat_map (valid_entry r) qs)%list.
Proof.
  revert acc e. induction qs as [|q qs IH]; intros acc e Hnd Hfresh; simpl.
  - rewrite app_nil_r. reflexivity.
  - inversion Hnd as [|? ? Hq Hnd']; subst.
    unfold valid_entry at 1. destruct (lookup (name q) r) as [resp|].
    + destruct (is_option resp q).
      * rewrite (dict_set_fresh acc (name q) resp (Hfresh q (or_introl eq_refl))).
        rewrite IH; [rewrite <- app_assoc; reflexivity|exact Hnd'|].
        intros q' Hq'. rewrite map_app. simpl. intro Hin. apply in_app_or in Hin as [Hin|[E|[]]].
        -- exact (Hfresh q' (or_intror Hq') Hin).
        -- apply Hq. rewrite E. apply in_map. exact Hq'.
      * rewrite IH; [reflexivity|exact Hnd'|]. intros q' Hq'. apply Hfresh. now right.
    + rewrite IH; [reflexivity|exact Hnd'|]. intros q' Hq'. apply Hfresh. now right.
Qed.

Lemma question_names_nodup : NoDup (map name questions).
Proof. simpl. repeat constructor; simpl; intuition discriminate. Qed.

Lemma valid_responses_eq (r : ResponseSet) :
  fst (validate_responses r) = flat_map (valid_entry r) questions.
Proof.
  unfold validate_responses. rewrite validate_loop_valid; [reflexivity|apply question_names_nodup|].
  intros q _ [].
Qed.

Lemma entries_length (r : ResponseSet) (qs : list QuestionDefinition) :
  (length (flat_map (valid_entry r) qs) + length (flat_map (question_errors r) qs))%nat = length qs.
Proof.
  induction qs as [|q qs IH]; simpl; [reflexivity|].
  rewrite !length_app.
  assert (H1 : (length (valid_entry r q) + length (question_errors r q))%nat = 1%nat).
  { unfold valid_entry, question_errors.
    destruct (lookup (name q) r) as [resp|]; [destruct (is_option resp q)|]; reflexivity. }
  lia.
Qed.

(** [validate_responses] keeps, in the order of [questions], exactly the
    questions answered with a permitted option, paired with that answer;
    each of the nine questions gives either one kept entry or one error. *)
Theorem validate_responses_partition (r : ResponseSet) :
  fst (validate_responses r) =
    flat_map (fun q => match lookup (name q) r with
                       | Some v => if is_option v q then [(name q, v)] else []
                       | None => []
                       end) questions /\
  (length (fst (validate_responses r)) + length (snd (validate_responses r)))%nat = 9%nat.
Proof.
  split; [apply valid_responses_eq|].
  rewrite valid_responses_eq. unfold validate_responses. rewrite validate_loop_errors, app_nil_l.
  apply entries_length.
Qed.

Lemma is_option_iff (v : string) (q : QuestionDefinition) :
  is_option v q = true <-> In v (options q).
Proof.
  unfold is_option. rewrite existsb_exists. split.
  - intros [x [Hx E]]. apply String.eqb_eq in E. subst. exact Hx.
  - intro H. exists v. split; [exact H|apply String.eqb_refl].
Qed.

Lemma flat_map_nil_iff {A B : Type} (f : A -> list B) (l : list A) :
  flat_map f l = [] <-> forall x, In x l -> f x = [].
Proof.
  induction l as [|x l IH]; simpl; [tauto|].
  split.
  - intros H y Hy. apply app_eq_nil in H as [H1 H2].
    destruct Hy as [<-|Hy]; [exact H1|exact (proj1 IH H2 y Hy)].
  - intro H. rewrite (H x (or_introl eq_refl)). simpl. apply IH.
    intros y Hy. apply H. now right.
Qed.

(** [validate_responses] reports no error exactly when every question is
    answered with one of its options. *)
Lemma responses_ok_iff (r : ResponseSet) :
  snd (validate_responses r) = [] <->
  forall q, In q questions -> exists v, lookup (name q) r = Some v /\ In v (options q).
Proof.
  unfold validate_responses. rewrite validate_loop_errors, app_nil_l, flat_map_nil_iff.
  split; intros H q Hq; specialize (H q Hq); unfold question_errors in *.
  - destruct (lookup (name q) r) as [v|]; [|discriminate].
    destruct (is_option v q) eqn:E; [|discriminate].
    exists v. split; [reflexivity|apply is_option_iff; exact E].
  - destruct H as [v [-> Hv]]. apply is_option_iff in Hv. rewrite Hv. reflexivity.
Qed.

Lemma lookup_app {A : Type} (k : string) (l1 l2 : list (string * A)) :
  lookup k (l1 ++ l2)%list = match lookup k l1 with Some v => Some v | None => lookup k l2 end.
Proof.
  induction l1 as [|[k' v'] l1 IH]; simpl; [reflexivity|].
  destruct (String.eqb k k'); [reflexivity|exact IH].
Qed.

Lemma valid_keys (r : ResponseSet) (qs : list QuestionDefinition) (k : string) :
  In k (map fst (flat_map (valid_entry r) qs)) -> In k (map name qs).
Proof.
  induction qs as [|q qs IH]; simpl; [tauto|].
  rewrite map_app. intro H. apply in_app_or in H as [H|H]; [|right; exact (IH H)].
  unfold valid_entry in H. destruct (lookup (name q) r); [destruct (is_option s q)|];
  simpl in H; [destruct H as [<-|[]]; now left|destruct H|destruct H].
Qed.

Lemma lookup_valid_entries (r : ResponseSet) (qs : list QuestionDefinition) (q : QuestionDefinition) :
  NoDup (map name qs) -> In q qs ->
  lookup (name q) (flat_map (valid_entry r) qs) =
    match lookup (name q) r with
    | Some v => if is_option v q then Some v else None
    | None => None
    end.
Proof.
  induction qs as [|q0 qs IH]; intros Hnd Hq; [destruct Hq|].
  inversion Hnd as [|? ? Hq0 Hnd']; subst. cbn [flat_map]. rewrite lookup_app.
  destruct Hq as [<-|Hq].
  - assert (Hrest : lookup (name q0) (flat_map (valid_entry r) qs) = None).
    { destruct (lookup (name q0) (flat_map (valid_entry r) qs)) eqn:E; [|reflexivity].
      exfalso. apply Hq0. apply (valid_keys r). apply in_keys_lookup. congruence. }
    unfold valid_entry. destruct (lookup (name q0) r) as [v|]; [destruct (is_option v q0)|];
    simpl; rewrite ?String.eqb_refl; [reflexivity|exact Hrest|exact Hrest].
  - assert (Hne : String.eqb (name q) (name q0) = false).
    { apply String.eqb_neq. intro E. apply Hq0. rewrite <- E. apply in_map. exact Hq. }
    assert (Hfirst : lookup (name q) (valid_entry r q0) = None).
    { unfold valid_entry. destruct (lookup (name q0) r) as [v|]; [destruct (is_option v q0)|];
      simpl; rewrite ?Hne; reflexivity. }
    rewrite Hfirst. apply IH; assumption.
Qed.

Lemma known_is_question (k : string) :
  known k = true -> exists q, In q questions /\ name q = k.
Proof.
  intro Hk. assert (Hin : In k (map fst event_impacts)).
  { apply in_keys_lookup. unfold known in Hk. destruct (lookup k event_impacts); congruence. }
  replace (map fst event_impacts) with (map name questions) in Hin by reflexivity.
  apply in_map_iff in Hin as [q [E Hq]]. exists q. auto.
Qed.

Lemma valid_scores_agree (r : ResponseSet) :
  NoDup (map fst r) -> snd (validate_responses r) = [] ->
  calculate_scores (fst (validate_responses r)) = calculate_scores r.
Proof.
  intros Hnd Hok. apply scores_agree_on_known.
  - unfold validate_responses. apply validate_loop_nodup. constructor.
  - exact Hnd.
  - intros k Hk. destruct (known_is_question k Hk) as [q [Hq <-]].
    rewrite valid_responses_eq, (lookup_valid_entries r questions q question_names_nodup Hq).
    destruct (proj1 (responses_ok_iff r) Hok q Hq) as [v [Hv Hopt]].
    apply is_option_iff in Hopt. rewrite Hv, Hopt. reflexivity.
Qed.

(** When a response dict passes [validate_responses], scoring the
    [valid_responses] it returns (what [process_assessment] does) gives the
    same [ScoreResult] as scoring the dict itself. *)
Theorem validated_scores_match_raw (r : ResponseSet) :
  NoDup (map fst r) -> snd (validate_responses r) = [] ->
  calculate_scores (fst (validate_responses r)) = calculate_scores r.
Proof. exact (valid_scores_agree r). Qed.

(** ** [validate_assessment_json] and [process_assessment] *)

Lemma assessment_ok_iff (a : AssessmentData) :
  validate_assessment_json a = [] <->
  timestamp_present a = true /\
  (exists email pt, patient a = Some (PatientDict (Some email) pt)) /\
  (exists r, responses_field a = Some (ResponsesDict r) /\
     forall q, In q questions -> exists v, lookup (name q) r = Some v /\ In v (options q)).
Proof.
  destruct a as [ts p rf]. unfold validate_assessment_json.
  cbn [timestamp_present patient responses_field].
  destruct ts; [|cbn [app]; split; [discriminate|intros [H _]; discriminate H]].
  destruct p as [[[email|] pt|]|];
  destruct rf as [[r|]|]; cbn [app];
  try (split; [discriminate|intros [_ [[e' [pt' H2]] [r' [H3 _]]]]; discriminate]).
  split.
  - intro H. split; [reflexivity|split; [exists email, pt; reflexivity|]].
    exists r. split; [reflexivity|]. exact (proj1 (responses_ok_iff r) H).
  - intros [_ [_ [r' [H3 H4]]]]. injection H3 as <-.
    exact (proj2 (responses_ok_iff r) H4).
Qed.

(** [validate_assessment_json] returns no error exactly when the timestamp
    is present, the patient is a dict holding an email, and the responses
    are a dict answering every question with one of its options. *)
Theorem validate_assessment_json_ok_iff (a : AssessmentData) :
  validate_assessment_json a = [] <->
  timestamp_present a = true /\
  (exists email pt, patient a = Some (PatientDict (Some email) pt)) /\
  (exists r, responses_field a = Some (ResponsesDict r) /\
     forall q, In q questions -> exists v, lookup (name q) r = Some v /\ In v (options q)).
Proof. exact (assessment_ok_iff a). Qed.

(** [process_assessment] returns "Invalid assessment data" with the whole
    list of [validate_assessment_json] when it is non-empty; otherwise it
    hands the patient's [previous_tier] and the scores of the validated
    responses to the rest of the pipeline.  Its second check ("Invalid
    responses") never fires: that error can only come from the rest of the
    pipeline. *)
Theorem process_assessment_outcomes
    (finish : AssessmentData -> option string -> ScoreResult -> ProcessResult)
    (a : AssessmentData) :
  (validate_assessment_json a <> [] ->
   process_assessment finish a = PError "Invalid assessment data" (validate_assessment_json a)) /\
  (validate_assessment_json a = [] ->
   exists email pt r,
     patient a = Some (PatientDict (Some email) pt) /\
     responses_field a = Some (ResponsesDict r) /\
     process_assessment finish a = finish a pt (calculate_scores (fst (validate_responses r)))) /\
  (forall details, process_assessment finish a = PError "Invalid responses" details ->
   exists pt s, finish a pt s = PError "Invalid responses" details).
Proof.
  assert (Hok : validate_assessment_json a = [] ->
     exists email pt r,
       patient a = Some (PatientDict (Some email) pt) /\
       responses_field a = Some (ResponsesDict r) /\
       process_assessment finish a = finish a pt (calculate_scores (fst (validate_responses r)))).
  { intro E. pose proof E as E'.
    apply assessment_ok_iff in E' as [_ [[email [pt Hp]] [r [Hr Hq]]]].
    exists email, pt, r. split; [exact Hp|split; [exact Hr|]].
    unfold process_assessment. rewrite E, Hp, Hr.
    pose proof (proj2 (responses_ok_iff r) Hq) as Hnil.
    destruct (validate_responses r) as [v errs]. simpl in Hnil |- *. subst errs. reflexivity. }
  split; [|split; [exact Hok|]].
  - intro Hne. unfold process_assessment.
    destruct (validate_assessment_json a); [contradiction|reflexivity].
  - intros details Hres. destruct (validate_assessment_json a) eqn:E.
    + destruct (Hok eq_refl) as [email [pt [r [_ [_ Hp]]]]].
      exists pt, (calculate_scores (fst (validate_responses r))). rewrite <- Hp. exact Hres.
    + unfold process_assessment in Hres. rewrite E in Hres. discriminate.
Qed.

(** ** No clamping on dict inputs *)

Lemma lookup_some_in {A : Type} (d : list (string * A)) (k : string) (v : A) :
  lookup k d = Some v -> In (k, v) d.
Proof.
  induction d as [|[k' v'] d IH]; simpl; [discriminate|].
  destruct (String.eqb k k') eqn:E.
  - apply String.eqb_eq in E. intro H. injection H as <-. subst. now left.
  - intro H. right. exact (IH H).
Qed.

Lemma entry_impact_nonpos (e : string * string) :
  (physical (entry_impact e) <= 0)%Z /\ (mental (entry_impact e) <= 0)%Z.
Proof.
  destruct e as [k o]. unfold entry_impact. cbn [fst snd].
  destruct (lookup k event_impacts) as [sub|] eqn:Hs; [|simpl; lia].
  destruct (lookup o sub) as [i|] eqn:Hi; [|simpl; lia].
  apply lookup_some_in in Hs, Hi. simpl in Hs.
  repeat destruct Hs as [Hs|Hs]; try contradiction; injection Hs as _ <-;
  simpl in Hi; repeat destruct Hi as [Hi|Hi]; try contradiction;
  injection Hi as _ <-; simpl; lia.
Qed.

Lemma delta_sums_nonpos (r : ResponseSet) :
  (zsum (fun e => physical (entry_impact e)) r <= 0)%Z /\
  (zsum (fun e => mental (entry_impact e)) r <= 0)%Z.
Proof.
  unfold zsum. induction r as [|e r IH]; simpl; [lia|].
  pose proof (entry_impact_nonpos e). lia.
Qed.

(** For a response dict (distinct keys) the deltas lie in [-23, 0] and
    [-13, 0], so the clamp never bites: the scores are exactly
    [100 + delta], and the insight score lies in [81, 100]. *)
Theorem scores_never_clamped (r : ResponseSet) :
  NoDup (map fst r) ->
  let s := calculate_scores r in
  (-23 <= physical_delta s <= 0)%Z /\ (-13 <= mental_delta s <= 0)%Z /\
  physical_score s = (100 + physical_delta s)%Z /\
  mental_score s = (100 + mental_delta s)%Z /\
  (81 # 1 <= insight_score s)%Q /\ (insight_score s <= 100 # 1)%Q.
Proof.
  intros Hnd s.
  destruct (calculate_scores_delta_floor r Hnd) as [Hp Hm].
  destruct (calculate_scores_fields r) as [Hps [Hms [Hi _]]].
  assert (Hup : (physical_delta s <= 0)%Z /\ (mental_delta s <= 0)%Z).
  { subst s. unfold calculate_scores. rewrite accumulate_deltas_sum. simpl.
    pose proof (delta_sums_nonpos r). lia. }
  fold s in Hp, Hm, Hps, Hms, Hi.
  unfold clamp_score, base_physical_score, base_mental_score in Hps, Hms.
  rewrite insight_exact in Hi.
  repeat split; try lia; rewrite Hi; unfold Qle; cbn [Qnum Qden]; lia.
Qed.

(** ** Tiers are monotone in the score *)

(** Position of a tier in [Independent > Monitor > Assist > Intervene]. *)
Definition tier_rank (t : string) : nat :=
  if String.eqb t "Independent" then 0
  else if String.eqb t "Monitor" then 1
  else if String.eqb t "Assist" then 2
  else 3.

Lemma Qle_bool_mono (c s1 s2 : Q) :
  (s1 <= s2)%Q -> Qle_bool c s1 = true -> Qle_bool c s2 = true.
Proof.
  intros H Hc. apply Qle_bool_iff in Hc. apply Qle_bool_iff. eapply Qle_trans; eassumption.
Qed.

(** A higher insight score never gives a more urgent tier. *)
Theorem get_insight_tier_monotone (s1 s2 : Q) :
  (s1 <= s2)%Q -> (tier_rank (get_insight_tier s2) <= tier_rank (get_insight_tier s1))%nat.
Proof.
  intro H. unfold get_insight_tier, tier_rank.
  destruct (Qle_bool (90 # 1) s1) eqn:A90;
  [rewrite (Qle_bool_mono _ _ _ H A90); simpl; lia|].
  destruct (Qle_bool (70 # 1) s1) eqn:A70;
  [rewrite (Qle_bool_mono _ _ _ H A70); destruct (Qle_bool (90 # 1) s2); simpl; lia|].
  destruct (Qle_bool (50 # 1) s1) eqn:A50;
  [rewrite (Qle_bool_mono _ _ _ H A50);
   destruct (Qle_bool (90 # 1) s2); [|destruct (Qle_bool (70 # 1) s2)]; simpl; lia|].
  destruct (Qle_bool (90 # 1) s2); [|destruct (Qle_bool (70 # 1) s2);
    [|destruct (Qle_bool (50 # 1) s2)]]; simpl; lia.
Qed.

(** ** The care-plan transitions *)

(** Between the four tiers: a transition to the same or a better tier gives
    the new tier's steady-state suggestion; a move to a worse tier gives the
    transition suggestion of the new tier (Monitor: balance and home-safety
    assessment; Assist: physical-therapy evaluation; Intervene:
    multidisciplinary care conference), whichever worse tier it came
    from. *)
Theorem care_plan_transition_table (t p : string) :
  In t tiers -> In p tiers ->
  ((tier_rank t <= tier_rank p)%nat ->
     lookup t suggestions = Some (get_care_plan_suggestion t (Some p))) /\
  ((tier_rank p < tier_rank t)%nat ->
     (t = "Monitor" -> get_care_plan_suggestion t (Some p) =
        "Schedule balance & home-safety assessment; brief caregiver check-in") /\
     (t = "Assist" -> get_care_plan_suggestion t (Some p) =
        "Initiate physical-therapy evaluation; schedule telehealth PCP visit within 72h") /\
     (t = "Intervene" -> get_care_plan_suggestion t (Some p) =
        "Convene multidisciplinary care conference (PCP, PT/OT, social worker); consider long-term-care placement")).
Proof.
  intros Ht Hp. simpl in Ht, Hp.
  repeat destruct Ht as [Ht|Ht]; try contradiction; subst t;
  repeat destruct Hp as [Hp|Hp]; try contradiction; subst p;
  unfold tier_rank; simpl;
  (split; intro Hr; [try lia; reflexivity|]);
  try lia; repeat split; intro E; try discriminate; reflexivity.
Qed.

(** A tier string that is none of the four (for instance a misspelt
    [previous_tier] fed back as the tier) gets "No specific
    recommendation", whatever the previous tier. *)
Theorem care_plan_unknown_tier (t : string) (p : option string) :
  ~ In t tiers ->
  get_care_plan_suggestion t p = "No specific recommendation".
Proof.
  intro Ht. simpl in Ht.
  assert (Hm : String.eqb t "Monitor" = false)
    by (apply String.eqb_neq; intro E; apply Ht; subst; tauto).
  assert (Ha : String.eqb t "Assist" = false)
    by (apply String.eqb_neq; intro E; apply Ht; subst; tauto).
  assert (Hi : String.eqb t "Intervene" = false)
    by (apply String.eqb_neq; intro E; apply Ht; subst; tauto).
  assert (Hl : lookup t suggestions = None).
  { apply lookup_notin. simpl. exact Ht. }
  unfold get_care_plan_suggestion. rewrite Hl, Hm, Ha, Hi.
  destruct p as [prev|]; [|reflexivity].
  destruct (py_truthy (Some prev) && negb (String.eqb t prev)); simpl; reflexivity.
Qed.

(** ** [check_smtp] *)

(** [self.smtp_config]: each key may be missing. *)
Record SmtpConfig := {
  cfg_server : option string;
  cfg_port : option Z;
  cfg_username : option string;
  cfg_password : option string
}.

(** The JSON of [/check-smtp]; [None] stands for the "NOT SET" default of
    [.get(key, "NOT SET")]. *)
Record SmtpStatus := {
  smtp_configured : bool;
  status_server : option string;
  status_port : option Z;
  status_username : option string;
  smtp_password_set : bool
}.

(** A dict is truthy when it has a key. *)
Definition config_truthy (c : SmtpConfig) : bool :=
  match cfg_server c, cfg_port c, cfg_username c, cfg_password c with
  | None, None, None, None => false
  | _, _, _, _ => true
  end.

Definition check_smtp (c : SmtpConfig) : SmtpStatus :=
  {| smtp_configured := config_truthy c && py_truthy (cfg_server c)
                        && py_truthy (cfg_username c) && py_truthy (cfg_password c);
     status_server := cfg_server c;
     status_port := cfg_port c;
     status_username := cfg_username c;
     smtp_password_set := py_truthy (cfg_password c) |}.

Lemma py_truthy_iff (o : option string) :
  py_truthy o = true <-> exists v, o = Some v /\ v <> "".
Proof.
  destruct o as [v|]; simpl.
  - rewrite negb_true_iff, String.eqb_neq. split.
    + intro H. exists v. auto.
    + intros [w [E H]]. injection E as <-. exact H.
  - split; [discriminate|intros [w [E _]]; discriminate].
Qed.

Lemma smtp_configured_eq (c : SmtpConfig) :
  smtp_configured (check_smtp c) =
    py_truthy (cfg_server c) && py_truthy (cfg_username c) && py_truthy (cfg_password c).
Proof. destruct c as [[sv|] [pt|] [us|] [pw|]]; reflexivity. Qed.

(** [/check-smtp] reports SMTP as configured exactly when the server, the
    username and the password are all present and non-empty; whenever it
    reports it configured it also reports the password as set. *)
Theorem check_smtp_configured_iff (c : SmtpConfig) :
  (smtp_configured (check_smtp c) = true <->
   exists server username password,
     cfg_server c = Some server /\ server <> "" /\
     cfg_username c = Some username /\ username <> "" /\
     cfg_password c = Some password /\ password <> "") /\
  (smtp_configured (check_smtp c) = true -> smtp_password_set (check_smtp c) = true).
Proof.
  rewrite smtp_configured_eq. cbn [check_smtp smtp_password_set].
  rewrite !andb_true_iff, !py_truthy_iff. split.
  - split.
    + intros [[[s [Hs Ns]] [u [Hu Nu]]] [w [Hw Nw]]]. exists s, u, w. tauto.
    + intros [s [u [w [Hs [Ns [Hu [Nu [Hw Nw]]]]]]]].
      split; [split|]; [exists s|exists u|exists w]; auto.
  - intros [_ H]. exact H.
Qed.

(** ** [save_to_csv] *)

(** A CSV cell: the values [save_to_csv] puts in its [data] dict. *)
Inductive CsvCell :=
| CText (s : string)
| CInt (z : Z)
| CNum (q : Q).

(** The values of [data] that come from outside the scores: the fresh
    [uuid4], [datetime.now()], and [assessment_data.get("timestamp", "")],
    [patient_data.get("email" | "name" | "age" | "gender", "")]. *)
Record CsvMeta := {
  csv_assessment_id : string;
  csv_timestamp : CsvCell;
  csv_processed_at : string;
  csv_email : CsvCell;
  csv_name : CsvCell;
  csv_age : CsvCell;
  csv_gender : CsvCell
}.

(** The [data] dict of [save_to_csv], in insertion order. *)
Definition csv_data (m : CsvMeta) (scores : ScoreResult) (responses : ResponseSet) :
    list (string * CsvCell) :=
  let data := [
    ("assessment_id", CText (csv_assessment_id m));
    ("timestamp", csv_timestamp m);
    ("processed_at", CText (csv_processed_at m));
    ("email", csv_email m);
    ("name", csv_name m);
    ("age", csv_age m);
    ("gender", csv_gender m);
    ("physical_score", CInt (physical_score scores));
    ("mental_score", CInt (mental_score scores));
    ("insight_score", CNum (insight_score scores));
    ("tier", CText (tier scores));
    ("physical_delta", CInt (physical_delta scores));
    ("mental_delta", CInt (mental_delta scores))] in
  fold_left (fun d question =>
      dict_set d (name question)
        (CText (match lookup (name question) responses with Some v => v | None => "" end)))
    questions data.

Definition csv_header : list string := (
  ["assessment_id"; "timestamp"; "processed_at"; "email"; "name"; "age"; "gender";
   "physical_score"; "mental_score"; "insight_score"; "tier"; "physical_delta";
   "mental_delta"] ++ map name questions)%list.

(** The master CSV [all_assessments.csv]: [None] when the file does not
    exist, else its header and rows.  [DictWriter] writes the values in the
    order of [fieldnames = list(data.keys())]; the header is written only
    when the file did not exist. *)
Definition master_append (file : option (list string * list (list CsvCell)))
    (data : list (string * CsvCell)) : option (list string * list (list CsvCell)) :=
  match file with
  | None => Some (map fst data, [map snd data])
  | Some (header, rows) => Some (header, (rows ++ [map snd data])%list)
  end.

Lemma csv_data_keys (m : CsvMeta) (s : ScoreResult) (r : ResponseSet) :
  map fst (csv_data m s r) = csv_header.
Proof. reflexivity. Qed.

Lemma master_append_existing (header : list string) (rows : list (list CsvCell))
    (items : list (list (string * CsvCell))) :
  fold_left master_append items (Some (header, rows)) =
    Some (header, (rows ++ map (map snd) items)%list).
Proof.
  revert rows. induction items as [|d items IH]; intro rows; simpl.
  - rewrite app_nil_r. reflexivity.
  - rewrite IH, <- app_assoc. reflexivity.
Qed.

(** Every row [save_to_csv] builds has the same columns, whatever the
    assessment: the 13 fixed fields then one per question in the order of
    [questions], each question's cell being its response or "".  So the
    master CSV, created by the first append, keeps that header and every
    later row lines up with it. *)
Theorem save_to_csv_columns (m : CsvMeta) (s : ScoreResult) (r : ResponseSet)
    (rest : list (CsvMeta * ScoreResult * ResponseSet)) :
  map fst (csv_data m s r) = csv_header /\
  (forall q, In q questions ->
     lookup (name q) (csv_data m s r) =
       Some (CText (match lookup (name q) r with Some v => v | None => "" end))) /\
  fold_left master_append
    (map (fun '(m', s', r') => csv_data m' s' r') ((m, s, r) :: rest)) None =
  Some (csv_header,
        map (fun '(m', s', r') => map snd (csv_data m' s' r')) ((m, s, r) :: rest)).
Proof.
  split; [apply csv_data_keys|split].
  - intros q Hq. simpl in Hq.
    repeat destruct Hq as [Hq|Hq]; try contradiction; subst q; reflexivity.
  - cbn [map fold_left]. unfold master_append at 2. rewrite csv_data_keys.
    rewrite master_append_existing, map_map. cbn [app map].
    do 3 f_equal. apply map_ext. intros [[m' s'] r']. reflexivity.
Qed.

(** ** Witnesses for the further properties *)

Lemma calculate_scores_depends_on_known_answers_witness :
  calculate_scores [("fall_risk", "High"); ("note", "a")] =
  calculate_scores [("note", "b"); ("fall_risk", "High")].
Proof.
  apply calculate_scores_depends_on_known_answers.
  - simpl. repeat constructor; simpl; intuition discriminate.
  - simpl. repeat constructor; simpl; intuition discriminate.
  - intros k Hk. cbn [lookup].
    destruct (String.eqb k "fall_risk") eqn:E1.
    + apply String.eqb_eq in E1. subst k. reflexivity.
    + destruct (String.eqb k "note") eqn:E2; [|reflexivity].
      apply String.eqb_eq in E2. subst k. discriminate Hk.
Defined.

Lemma validated_scores_match_raw_witness :
  calculate_scores (fst (validate_responses (worst_case_responses ++ [("note", "x")])%list)) =
  calculate_scores (worst_case_responses ++ [("note", "x")])%list.
Proof.
  apply validated_scores_match_raw.
  - simpl. repeat constructor; simpl; intuition discriminate.
  - vm_compute. reflexivity.
Defined.

Lemma scores_never_clamped_witness :
  physical_score (calculate_scores worst_case_responses) =
    (100 + physical_delta (calculate_scores worst_case_responses))%Z.
Proof.
  apply (scores_never_clamped worst_case_responses).
  simpl. repeat constructor; simpl; intuition discriminate.
Defined.

Lemma get_insight_tier_monotone_witness :
  (tier_rank (get_insight_tier (90 # 1)) <= tier_rank (get_insight_tier (899 # 10)))%nat.
Proof.
  apply get_insight_tier_monotone. unfold Qle. simpl. lia.
Defined.

Lemma care_plan_transition_table_witness :
  get_care_plan_suggestion "Monitor" (Some "Independent") =
    "Schedule balance & home-safety assessment; brief caregiver check-in".
Proof.
  apply (care_plan_transition_table "Monitor" "Independent");
  [simpl; right; left; reflexivity|simpl; left; reflexivity|unfold tier_rank; simpl; lia|reflexivity].
Defined.

Lemma care_plan_unknown_tier_witness :
  get_care_plan_suggestion "Unknown" (Some "Monitor") = "No specific recommendation".
Proof.
  apply care_plan_unknown_tier. simpl. intuition discriminate.
Defined.
